(** * todoapp-typescript: the task store and its view (src/App.tsx)

    A shallow embedding of the reducer of [App.tsx], of the two projections
    the component renders and of its add/remove handlers, followed by the
    properties of the store.

    Conventions of the embedding:
    - a JavaScript string is the sequence of its UTF-16 code units
      ([jsstring]); [lit] injects an ASCII literal;
    - a task [id] is an integral [number] (the ids of the remote source and
      [Date.now()]), so [===] on ids is equality on [Z];
    - [string | null] is [option jsstring], [null] being [None];
    - [dispatch] and [setNewTaskName] are the two effects a handler can
      perform; a handler returns the effects in program order and
      [run] applies them to the component. *)

From Stdlib Require Import ZArith NArith String Ascii.
From stdpp Require Import base decidable numbers list.

Local Open Scope Z_scope.

(** ** Strings *)

Definition jsstring : Type := list N.

(** The code units of an ASCII literal. *)
Definition lit (s : string) : jsstring :=
  N_of_ascii <$> list_ascii_of_string s.

(** ECMAScript WhiteSpace and LineTerminator code points: what
    [String.prototype.trim] strips.  All of them lie in the basic
    multilingual plane, so each is one code unit. *)
Definition isWhiteSpace (c : N) : bool :=
  ((0x0009 <=? c) && (c <=? 0x000D)      (* TAB LF VT FF CR *)
   || (c =? 0x0020) || (c =? 0x00A0)     (* SP NBSP *)
   || (c =? 0x1680)
   || (0x2000 <=? c) && (c <=? 0x200A)
   || (c =? 0x2028) || (c =? 0x2029)     (* LS PS *)
   || (c =? 0x202F) || (c =? 0x205F)
   || (c =? 0x3000) || (c =? 0xFEFF))%N.

Fixpoint trimStart (s : jsstring) : jsstring :=
  match s with
  | c :: s' => if isWhiteSpace c then trimStart s' else s
  | [] => []
  end.

Definition trimEnd (s : jsstring) : jsstring :=
  reverse (trimStart (reverse s)).

(** [s.trim()] *)
Definition trim (s : jsstring) : jsstring :=
  trimEnd (trimStart s).

(** ** Data model *)

(** [interface Task] *)
Record Task : Type := {
  id : Z;
  name : jsstring;
  done : bool;
}.

(** [interface State] *)
Record State : Type := {
  tasks : list Task;
  loading : bool;
  error : option jsstring;
}.

(** The tags of [type Action]. *)
Definition action_tags : list string :=
  ["FETCH_SUCCESS"; "FETCH_ERROR"; "TOGGLE_TASK"; "ADD_TASK"; "REMOVE_TASK"]%string.

Definition known_tag (tag : string) : bool :=
  existsb (String.eqb tag) action_tags.

(** [type Action]: the five members of the union, each with the payload its
    tag fixes, and [OTHER] for an action object whose tag is none of the
    five, which is what the [default] branch of the reducer receives. *)
Inductive Action : Type :=
  | FETCH_SUCCESS (payload : list Task)
  | FETCH_ERROR (payload : jsstring)
  | TOGGLE_TASK (payload : Z)
  | ADD_TASK (payload : Task)
  | REMOVE_TASK (payload : Z)
  | OTHER (tag : string) (unknown : known_tag tag = false).

(** [action.type] *)
Definition type (action : Action) : string :=
  match action with
  | FETCH_SUCCESS _ => "FETCH_SUCCESS"
  | FETCH_ERROR _ => "FETCH_ERROR"
  | TOGGLE_TASK _ => "TOGGLE_TASK"
  | ADD_TASK _ => "ADD_TASK"
  | REMOVE_TASK _ => "REMOVE_TASK"
  | OTHER tag _ => tag
  end.

(** [const initialState] *)
Definition initialState : State :=
  {| tasks := []; loading := true; error := None |}.

(** ** The store *)

(** [{ ...task, done: !task.done }] *)
Definition toggled (task : Task) : Task :=
  {| id := id task; name := name task; done := negb (done task) |}.

(** The arrow function that the TOGGLE_TASK case maps over [tasks], under a
    name. *)
Definition toggle_in (payload : Z) (task : Task) : Task :=
  if decide (id task = payload) then toggled task else task.

(** [const reducer] *)
Definition reducer (state : State) (action : Action) : State :=
  match action with
  | FETCH_SUCCESS payload =>
      {| tasks := payload; loading := false; error := error state |}
  | FETCH_ERROR payload =>
      {| tasks := tasks state; loading := false; error := Some payload |}
  | TOGGLE_TASK payload =>
      {| tasks :=
           (λ task, if decide (id task = payload) then toggled task else task)
             <$> tasks state;
         loading := loading state;
         error := error state |}
  | ADD_TASK payload =>
      {| tasks := tasks state ++ [payload];
         loading := loading state;
         error := error state |}
  | REMOVE_TASK payload =>
      {| tasks := filter (λ task, id task ≠ payload) (tasks state);
         loading := loading state;
         error := error state |}
  | OTHER _ _ => state
  end.

(** ** The view *)

(** The component's two pieces of React state: [useReducer]'s [state] and
    [useState]'s [newTaskName]. *)
Record Component : Type := {
  state : State;
  newTaskName : jsstring;
}.

Inductive Effect : Type :=
  | dispatch (action : Action)
  | setNewTaskName (value : jsstring).

Definition perform (c : Component) (e : Effect) : Component :=
  match e with
  | dispatch action =>
      {| state := reducer (state c) action; newTaskName := newTaskName c |}
  | setNewTaskName value =>
      {| state := state c; newTaskName := value |}
  end.

Definition run (c : Component) (effects : list Effect) : Component :=
  foldl perform c effects.

(** [const handleAddTask]; [now] is the value of [Date.now()]. *)
Definition handleAddTask (now : Z) (c : Component) : list Effect :=
  if decide (trim (newTaskName c) = []) then []
  else
    let newTask := {| id := now; name := newTaskName c; done := false |} in
    [dispatch (ADD_TASK newTask); setNewTaskName []].

(** [const handleRemoveTask] *)
Definition handleRemoveTask (id : Z) : list Effect :=
  [dispatch (REMOVE_TASK id)].

(** [const tasksToDo = tasks.filter((task) => !task.done)] *)
Definition tasksToDo (tasks : list Task) : list Task :=
  filter (λ task, ¬ done task) tasks.

(** [const doneTasks = tasks.filter((task) => task.done)] *)
Definition doneTasks (tasks : list Task) : list Task :=
  filter (λ task, done task) tasks.

(** What [App] returns: one of its three [return]s. *)
Inductive Rendered : Type :=
  | LoadingIndicator
  | ErrorPanel (message : jsstring)
  | TaskBoard (draft : jsstring) (todo finished : list Task).

(** [if (error)]: [null] and the empty string are falsy. *)
Definition truthy (error : option jsstring) : bool :=
  match error with
  | Some (_ :: _) => true
  | _ => false
  end.

(** [function App] *)
Definition App (c : Component) : Rendered :=
  if loading (state c) then LoadingIndicator
  else if truthy (error (state c)) then ErrorPanel (default [] (error (state c)))
  else TaskBoard (newTaskName c)
         (tasksToDo (tasks (state c))) (doneTasks (tasks (state c))).

(** ** The component's life: mount, fetch, gestures *)

(** The component as first rendered: [useReducer(reducer, initialState)] and
    [useState("")]. *)
Definition mounted : Component :=
  {| state := initialState; newTaskName := lit "" |}.

(** How the promise of [axios.get] settles: fulfilled with [response.data],
    or rejected with an error of which the code reads [message]. *)
Inductive Outcome : Type :=
  | Fulfilled (data : list Task)
  | Rejected (message : jsstring).

(** The [.then] and [.catch] callbacks of the effect run on mount. *)
Definition onFetchSettled (outcome : Outcome) : list Effect :=
  match outcome with
  | Fulfilled data => [dispatch (FETCH_SUCCESS data)]
  | Rejected message => [dispatch (FETCH_ERROR message)]
  end.

(** What the user can do on the rendered tree: type in the input
    ([onChange]), click the add button, click the check button of a task,
    click the trash button of a task. *)
Inductive Gesture : Type :=
  | ChangeDraft (value : jsstring)
  | ClickAdd
  | ClickToggle (task : Task)
  | ClickRemove (task : Task).

#[global] Instance Task_eq_dec : EqDecision Task.
Proof. solve_decision. Defined.

(** Which controls the returned tree has.  The loading and error returns
    have none.  The third return has the input and the add button; each
    item of [tasksToDo.map] has a check and a trash button, each item of
    [doneTasks.map] a trash button only. *)
Definition offered (c : Component) (g : Gesture) : bool :=
  match App c with
  | TaskBoard _ todo finished =>
      match g with
      | ChangeDraft _ | ClickAdd => true
      | ClickToggle task => bool_decide (task ∈ todo)
      | ClickRemove task => bool_decide (task ∈ todo ++ finished)
      end
  | _ => false
  end.

(** The handler bound to each control; [now] is [Date.now()] at the time of
    the event. *)
Definition handler (now : Z) (c : Component) (g : Gesture) : list Effect :=
  match g with
  | ChangeDraft value => [setNewTaskName value]
  | ClickAdd => handleAddTask now c
  | ClickToggle task => [dispatch (TOGGLE_TASK (id task))]
  | ClickRemove task => handleRemoveTask (id task)
  end.

(** One event: the handler runs and React applies its updates. *)
Definition interact (now : Z) (c : Component) (g : Gesture) : Component :=
  run c (handler now c g).

(** The two actions the fetch dispatches. *)
Definition is_fetch (action : Action) : bool :=
  match action with
  | FETCH_SUCCESS _ | FETCH_ERROR _ => true
  | _ => false
  end.

(** [className] of the name [span] of a to-do item:
    [task.done ? "line-through text-[#78CFB0]" : ""]. *)
Definition todoItemClass (task : Task) : jsstring :=
  lit "flex-1 " ++ (if done task then lit "line-through text-[#78CFB0]" else lit "").

(** What an action must satisfy for the ids to stay unique: the reducer
    itself checks nothing. *)
Definition keeps_ids_unique (s : State) (a : Action) : Prop :=
  match a with
  | FETCH_SUCCESS payload => NoDup (id <$> payload)
  | ADD_TASK payload => id payload ∉ id <$> tasks s
  | _ => True
  end.

(** ** Running examples *)

Definition buy_milk : Task :=
  {| id := 1; name := lit "Buy milk"; done := false |}.

Example white_space_units :
  isWhiteSpace 0x00A0 = true ∧ isWhiteSpace 0x2028 = true
  ∧ isWhiteSpace 0x0085 = false ∧ isWhiteSpace 0x200B = false.
Proof. repeat split. Qed.

Example trim_spaces : trim (lit "  ") = [].
Proof. reflexivity. Qed.

Example trim_padded : trim (lit "  Buy milk ") = lit "Buy milk".
Proof. reflexivity. Qed.

Example toggle_buy_milk :
  let s := reducer (reducer initialState (FETCH_SUCCESS [buy_milk])) (TOGGLE_TASK 1) in
  tasksToDo (tasks s) = [] ∧ length (doneTasks (tasks s)) = 1%nat.
Proof. split; reflexivity. Qed.

(** ** Auxiliary facts *)

Section list_facts.
Context {A : Type} (P : A → Prop) `{!∀ x, Decision (P x)}.

(** A filter whose predicate holds of every element keeps the list. *)
Lemma filter_all (l : list A) : Forall P l → filter P l = l.
Proof.
  induction 1 as [|x l Hx _ IH]; [done|].
  by rewrite filter_cons_True, IH.
Qed.

(** The two halves of a filter never share an element. *)
Lemma filter_complement_disjoint (l : list A) (x : A) :
  x ∈ filter P l → x ∉ filter (λ y, ¬ P y) l.
Proof.
  intros [HP _]%list_elem_of_filter [HnP _]%list_elem_of_filter. by apply HnP.
Qed.
End list_facts.

Lemma toggled_involutive (task : Task) : toggled (toggled task) = task.
Proof. destruct task as [i n d]. unfold toggled; simpl. by rewrite negb_involutive. Qed.

Lemma toggled_changes (task : Task) : toggled task ≠ task.
Proof.
  destruct task as [i n d]. unfold toggled; simpl.
  intros [= H]. by destruct d.
Qed.

Lemma toggle_in_twice (payload : Z) (task : Task) :
  toggle_in payload (toggle_in payload task) = task.
Proof.
  unfold toggle_in. destruct (decide (id task = payload)) as [Heq|Hne]; simpl.
  - rewrite decide_True by done. apply toggled_involutive.
  - by rewrite decide_False.
Qed.

Lemma toggle_map_absent (payload : Z) (l : list Task) :
  payload ∉ id <$> l → toggle_in payload <$> l = l.
Proof.
  induction l as [|task l IH]; [done|]. rewrite fmap_cons, not_elem_of_cons.
  intros [Hne Hl]. rewrite fmap_cons, IH by done.
  unfold toggle_in. by rewrite decide_False.
Qed.

Lemma toggle_map_present (payload : Z) (l : list Task) :
  payload ∈ id <$> l → toggle_in payload <$> l ≠ l.
Proof.
  induction l as [|task l IH]; rewrite ?fmap_cons.
  - by intros ?%elem_of_nil.
  - intros Hin [= Hhd Htl]. apply elem_of_cons in Hin as [Heq|Hin].
    + unfold toggle_in in Hhd. rewrite decide_True in Hhd by done.
      by apply toggled_changes in Hhd.
    + by apply IH.
Qed.

Lemma remove_absent (payload : Z) (l : list Task) :
  payload ∉ id <$> l → filter (λ task, id task ≠ payload) l = l.
Proof.
  intros Hnot. apply filter_all, Forall_forall. intros task Hin <-.
  apply Hnot, list_elem_of_fmap. eauto.
Qed.

Lemma state_eta (s : State) :
  {| tasks := tasks s; loading := loading s; error := error s |} = s.
Proof. by destruct s. Qed.

(** [trimStart] leaves nothing exactly when every code unit is white space. *)
Lemma trimStart_empty (s : jsstring) :
  trimStart s = [] ↔ forallb isWhiteSpace s = true.
Proof.
  induction s as [|c s IH]; simpl; [done|].
  destruct (isWhiteSpace c); simpl; [done|]. split; discriminate.
Qed.

(** What [trimStart] leaves does not start with white space. *)
Lemma trimStart_head (s : jsstring) (c : N) (r : jsstring) :
  trimStart s = c :: r → isWhiteSpace c = false.
Proof.
  induction s as [|d s IH]; simpl; [done|].
  destruct (isWhiteSpace d) eqn:Hd; [done|]. by intros [= <- _].
Qed.

Lemma forallb_reverse (f : N → bool) (s : jsstring) :
  forallb f (reverse s) = forallb f s.
Proof.
  induction s as [|c s IH]; [done|].
  rewrite reverse_cons, forallb_app, IH. simpl. rewrite andb_true_r. apply andb_comm.
Qed.

(** The guard of the add-task handler: [s.trim() === ""] holds exactly of the
    texts made of white space only. *)
Lemma trim_empty (s : jsstring) :
  trim s = [] ↔ forallb isWhiteSpace s = true.
Proof.
  unfold trim, trimEnd. split.
  - intros H. apply (f_equal reverse) in H. rewrite reverse_involutive in H.
    change (reverse []) with (@nil N) in H.
    apply trimStart_empty in H. rewrite forallb_reverse in H.
    destruct (trimStart s) as [|c r] eqn:Hs; [by apply trimStart_empty|].
    apply trimStart_head in Hs. simpl in H. by rewrite Hs in H.
  - intros H. apply trimStart_empty in H. by rewrite H.
Qed.

(** An error whose message is the empty string is falsy in [if (error)]:
    the component renders the task board, not the error panel. *)
Lemma empty_error_message_not_rendered (ts : list Task) (draft : jsstring) :
  App {| state := {| tasks := ts; loading := false; error := Some (lit "") |};
         newTaskName := draft |}
  = TaskBoard draft (tasksToDo ts) (doneTasks ts).
Proof. reflexivity. Qed.

(** REMOVE_TASK removes every task that carries the id: with an id that an
    older task already has, removing what was just added removes both. *)
Example add_then_remove_reused_id :
  tasks (reducer (reducer (reducer initialState (FETCH_SUCCESS [buy_milk]))
                    (ADD_TASK {| id := 1; name := lit "Walk"; done := false |}))
           (REMOVE_TASK 1))
  = [].
Proof. reflexivity. Qed.

(** ** Properties of the view's projections *)

(** C1. For every state the projections [tasksToDo] and [doneTasks] split
    [tasks] totally and in order: [tasksToDo ++ doneTasks] is a permutation
    of [tasks]; a task of [tasks] lies in exactly one of the two lists, the
    one its [done] flag selects; and each projection is a subsequence of
    [tasks], so it keeps the relative order of its elements. *)
Theorem partition_total_order_preserving (s : State) :
  tasksToDo (tasks s) ++ doneTasks (tasks s) ≡ₚ tasks s
  ∧ (∀ task, task ∈ tasks s →
       (task ∈ tasksToDo (tasks s) ∧ ¬ (task ∈ doneTasks (tasks s)))
       ∨ (¬ (task ∈ tasksToDo (tasks s)) ∧ task ∈ doneTasks (tasks s)))
  ∧ (∀ task, task ∈ tasksToDo (tasks s) ↔ task ∈ tasks s ∧ done task = false)
  ∧ (∀ task, task ∈ doneTasks (tasks s) ↔ task ∈ tasks s ∧ done task = true)
  ∧ tasksToDo (tasks s) `sublist_of` tasks s
  ∧ doneTasks (tasks s) `sublist_of` tasks s
  ∧ (length (tasksToDo (tasks s)) + length (doneTasks (tasks s)) = length (tasks s))%nat.
Proof.
  unfold tasksToDo, doneTasks. set (l := tasks s). clearbody l.
  assert (Hperm : filter (λ task, ¬ done task) l ++ filter (λ task, done task) l ≡ₚ l).
  { rewrite (comm (++)). apply (filter_app_complement (λ task : Task, done task : Prop)). }
  split_and!.
  - exact Hperm.
  - intros task Hin. destruct (done task) eqn:Hd.
    + right. split; rewrite list_elem_of_filter.
      * intros [Hn _]. by apply Is_true_false_1 in Hn; congruence.
      * by split; [apply Is_true_true_2|].
    + left. split; rewrite list_elem_of_filter.
      * by split; [apply Is_true_false_2|].
      * intros [Hn _]. apply Is_true_true_1 in Hn. congruence.
  - intros task. rewrite list_elem_of_filter, Is_true_false. tauto.
  - intros task. rewrite list_elem_of_filter, Is_true_true. tauto.
  - apply sublist_filter.
  - apply sublist_filter.
  - rewrite <- length_app. by rewrite Hperm.
Qed.

(** ** Properties of the reducer *)

(** C2. TOGGLE_TASK is its own inverse: for an id present in [tasks],
    dispatching it twice gives back the state, hence the [tasks] list, with
    the flag of the toggled task restored and every other task as it was;
    the first dispatch alone does change the list. *)
Theorem toggle_task_involutive (s : State) (i : Z) :
  i ∈ id <$> tasks s →
  tasks (reducer (reducer s (TOGGLE_TASK i)) (TOGGLE_TASK i)) = tasks s
  ∧ reducer (reducer s (TOGGLE_TASK i)) (TOGGLE_TASK i) = s
  ∧ tasks (reducer s (TOGGLE_TASK i)) ≠ tasks s
  ∧ (∀ n task, tasks s !! n = Some task →
       tasks (reducer s (TOGGLE_TASK i)) !! n
       = Some (if decide (id task = i) then toggled task else task)).
Proof.
  intros Hin.
  assert (Htwice : toggle_in i <$> (toggle_in i <$> tasks s) = tasks s).
  { rewrite <- list_fmap_compose. rewrite <- (list_fmap_id (tasks s)) at 2.
    apply list_fmap_ext. intros _ task _. apply toggle_in_twice. }
  split_and!.
  - exact Htwice.
  - simpl. change (λ task, if decide (id task = i) then toggled task else task)
      with (toggle_in i). rewrite Htwice. apply state_eta.
  - by apply toggle_map_present.
  - intros n task Hn. simpl. by rewrite list_lookup_fmap, Hn.
Qed.

Lemma toggle_task_involutive_witness :
  let loaded := reducer initialState (FETCH_SUCCESS [buy_milk]) in
  1 ∈ id <$> tasks loaded
  ∧ tasks (reducer loaded (TOGGLE_TASK 1)) = [toggled buy_milk]
  ∧ tasks (reducer (reducer loaded (TOGGLE_TASK 1)) (TOGGLE_TASK 1)) = [buy_milk].
Proof.
  intros loaded.
  assert (Hpresent : 1 ∈ id <$> tasks loaded) by (simpl; apply list_elem_of_here).
  split_and!; [exact Hpresent | reflexivity |].
  exact (proj1 (toggle_task_involutive loaded 1 Hpresent)).
Defined.

(** C3. ADD_TASK of a task whose id is fresh for the state, followed by
    REMOVE_TASK of that id, gives back the [tasks] list as it was before the
    addition: the same elements in the same order. *)
Theorem add_then_remove_restores (s : State) (t : Task) :
  id t ∉ id <$> tasks s →
  tasks (reducer (reducer s (ADD_TASK t)) (REMOVE_TASK (id t))) = tasks s
  ∧ reducer (reducer s (ADD_TASK t)) (REMOVE_TASK (id t)) = s.
Proof.
  intros Hfresh.
  assert (Ht : filter (λ task, id task ≠ id t) (tasks s ++ [t]) = tasks s).
  { rewrite filter_app, remove_absent by done.
    rewrite filter_cons_False by (intros H; by apply H).
    by rewrite filter_nil, app_nil_r. }
  split; simpl; rewrite Ht; [done | apply state_eta].
Qed.

Lemma add_then_remove_restores_witness :
  let loaded := reducer initialState (FETCH_SUCCESS [buy_milk]) in
  let walk := {| id := 1730505600000; name := lit "Walk"; done := false |} in
  (id walk ∉ id <$> tasks loaded)
  ∧ tasks (reducer loaded (ADD_TASK walk)) = [buy_milk; walk]
  ∧ tasks (reducer (reducer loaded (ADD_TASK walk)) (REMOVE_TASK (id walk))) = [buy_milk].
Proof.
  intros loaded walk.
  assert (Hfresh : id walk ∉ id <$> tasks loaded).
  { simpl. intros H. apply list_elem_of_singleton in H. discriminate H. }
  split_and!; [exact Hfresh | reflexivity |].
  exact (proj1 (add_then_remove_restores loaded walk Hfresh)).
Defined.

(** C4. FETCH_SUCCESS replaces [tasks] by its payload and clears [loading],
    whatever the state; from the initial state, the payload
    [[{id:1, name:"Buy milk", done:false}]] gives exactly
    [{tasks: [that task], loading: false, error: null}]. *)
Theorem fetch_success_replaces_tasks :
  (∀ (s : State) (P : list Task),
     tasks (reducer s (FETCH_SUCCESS P)) = P
     ∧ loading (reducer s (FETCH_SUCCESS P)) = false)
  ∧ reducer initialState
      (FETCH_SUCCESS [{| id := 1; name := lit "Buy milk"; done := false |}])
    = {| tasks := [{| id := 1; name := lit "Buy milk"; done := false |}];
         loading := false;
         error := None |}.
Proof. split; [intros s P; split|]; reflexivity. Qed.

(** C5. FETCH_ERROR sets [error] to its message and clears [loading], and
    leaves [tasks] as it was; with the message "Network Error" the component
    then renders the error panel and nothing else. *)
Theorem fetch_error_sets_error (s : State) (m : jsstring) :
  error (reducer s (FETCH_ERROR m)) = Some m
  ∧ loading (reducer s (FETCH_ERROR m)) = false
  ∧ tasks (reducer s (FETCH_ERROR m)) = tasks s
  ∧ (∀ draft,
       App {| state := reducer s (FETCH_ERROR (lit "Network Error"));
              newTaskName := draft |}
       = ErrorPanel (lit "Network Error")).
Proof. split_and!; reflexivity. Qed.

(** C6. TOGGLE_TASK and REMOVE_TASK of an id that no task carries return the
    state they were given: an unknown id is a silent no-op. *)
Theorem unknown_id_is_noop (s : State) (i : Z) :
  i ∉ id <$> tasks s →
  reducer s (TOGGLE_TASK i) = s ∧ reducer s (REMOVE_TASK i) = s.
Proof.
  intros Habsent. split; simpl.
  - change (λ task, if decide (id task = i) then toggled task else task)
      with (toggle_in i).
    rewrite toggle_map_absent by done. apply state_eta.
  - rewrite remove_absent by done. apply state_eta.
Qed.

Lemma unknown_id_is_noop_witness :
  let loaded := reducer initialState (FETCH_SUCCESS [buy_milk]) in
  (7 ∉ id <$> tasks loaded)
  ∧ reducer loaded (TOGGLE_TASK 7) = loaded
  ∧ reducer loaded (REMOVE_TASK 7) = loaded.
Proof.
  intros loaded.
  assert (Habsent : 7 ∉ id <$> tasks loaded).
  { simpl. intros H. apply list_elem_of_singleton in H. discriminate H. }
  split; [exact Habsent | exact (unknown_id_is_noop loaded 7 Habsent)].
Defined.

(** C7. An action whose tag is none of FETCH_SUCCESS, FETCH_ERROR,
    TOGGLE_TASK, ADD_TASK and REMOVE_TASK is answered with the state
    unchanged. *)
Theorem unknown_action_identity (s : State) (a : Action) :
  known_tag (type a) = false → reducer s a = s.
Proof. destruct a; simpl; intros Htag; by try discriminate Htag. Qed.

Lemma unknown_action_identity_witness :
  known_tag (type (OTHER "RESET" eq_refl)) = false
  ∧ reducer initialState (OTHER "RESET" eq_refl) = initialState.
Proof.
  assert (Htag : known_tag (type (OTHER "RESET" eq_refl)) = false) by reflexivity.
  split; [exact Htag|].
  exact (unknown_action_identity initialState (OTHER "RESET" eq_refl) Htag).
Defined.

(** C8. Once [loading] is false it stays false: no action sets it back, so
    it is false after any further sequence of actions. *)
Theorem loading_stays_false (s : State) :
  loading s = false →
  (∀ a, loading (reducer s a) = false)
  ∧ (∀ actions, loading (foldl reducer s actions) = false).
Proof.
  intros Hs.
  assert (Hstep : ∀ s' a, loading s' = false → loading (reducer s' a) = false).
  { intros s' a Hs'. by destruct a. }
  split; [intros a; by apply Hstep|].
  intros actions. revert s Hs.
  induction actions as [|a actions IH]; intros s Hs; simpl; [done|].
  by apply IH, Hstep.
Qed.

Lemma loading_stays_false_witness :
  let failed := reducer initialState (FETCH_ERROR (lit "Network Error")) in
  loading failed = false
  ∧ loading (reducer failed (FETCH_SUCCESS [buy_milk])) = false
  ∧ loading (foldl reducer failed [ADD_TASK buy_milk; TOGGLE_TASK 1; REMOVE_TASK 1]) = false.
Proof.
  intros failed.
  assert (Hresolved : loading failed = false) by reflexivity.
  destruct (loading_stays_false failed Hresolved) as [Hstep Hrun].
  split_and!; [exact Hresolved | apply Hstep | apply Hrun].
Defined.

(** ** Properties of the handlers and of rendering *)

(** C9. The add-task handler suppresses a draft whose trim is empty: nothing
    is dispatched and the component is unchanged.  For any other draft it
    dispatches ADD_TASK with a task whose name is the draft as typed, not
    trimmed, and whose [done] is false (and then clears the draft); the
    reducer appends that task at the end of [tasks].  The reducer validates
    nothing: it appends whatever task it is given, one with the empty
    string as name included. *)
Theorem add_task_gesture (now : Z) (c : Component) :
  (trim (newTaskName c) = [] →
     handleAddTask now c = [] ∧ run c (handleAddTask now c) = c)
  ∧ (trim (newTaskName c) ≠ [] →
     handleAddTask now c
     = [dispatch (ADD_TASK {| id := now; name := newTaskName c; done := false |});
        setNewTaskName []]
     ∧ tasks (state (run c (handleAddTask now c)))
       = tasks (state c) ++ [{| id := now; name := newTaskName c; done := false |}]
     ∧ newTaskName (run c (handleAddTask now c)) = [])
  ∧ (∀ (s : State) (t : Task), tasks (reducer s (ADD_TASK t)) = tasks s ++ [t])
  ∧ (∀ (s : State) (i : Z) (d : bool),
       tasks (reducer s (ADD_TASK {| id := i; name := lit ""; done := d |}))
       = tasks s ++ [{| id := i; name := lit ""; done := d |}]).
Proof.
  split_and!.
  - intros Hblank. unfold handleAddTask. by rewrite decide_True.
  - intros Htext. unfold handleAddTask. by rewrite decide_False.
  - reflexivity.
  - reflexivity.
Qed.

Lemma add_task_gesture_witness :
  let loaded := reducer initialState (FETCH_SUCCESS [buy_milk]) in
  (trim (lit "   ") = [] ∧ handleAddTask 1730505600000 {| state := loaded; newTaskName := lit "   " |} = [])
  ∧ (trim (lit " Walk ") ≠ []
     ∧ tasks (state (run {| state := loaded; newTaskName := lit " Walk " |}
                       (handleAddTask 1730505600000
                          {| state := loaded; newTaskName := lit " Walk " |})))
       = [buy_milk; {| id := 1730505600000; name := lit " Walk "; done := false |}]).
Proof.
  intros loaded.
  assert (Hblank : trim (lit "   ") = []) by reflexivity.
  assert (Htext : trim (lit " Walk ") ≠ []) by discriminate.
  destruct (add_task_gesture 1730505600000
              {| state := loaded; newTaskName := lit "   " |}) as (Hsuppress & _).
  destruct (add_task_gesture 1730505600000
              {| state := loaded; newTaskName := lit " Walk " |}) as (_ & Hadd & _).
  split; (split; [assumption|]).
  - apply (Hsuppress Hblank).
  - apply (Hadd Htext).
Defined.

(** C10, as stated, at a message that is the empty string: [error] is set
    (it is not [null]) and FETCH_SUCCESS keeps it, yet [if (error)] is false
    and the component renders the board with the fetched tasks, not the
    error panel. *)
Lemma fetch_success_empty_error_shows_tasks :
  let failed := reducer initialState (FETCH_ERROR (lit "")) in
  error failed ≠ None
  ∧ error (reducer failed (FETCH_SUCCESS [buy_milk])) = error failed
  ∧ App {| state := reducer failed (FETCH_SUCCESS [buy_milk]); newTaskName := lit "" |}
    = TaskBoard (lit "") [buy_milk] []
  ∧ (∀ m, App {| state := reducer failed (FETCH_SUCCESS [buy_milk]);
                 newTaskName := lit "" |}
          ≠ ErrorPanel m).
Proof. split_and!; [discriminate | reflexivity | reflexivity | discriminate]. Qed.

(** C10, amended. FETCH_SUCCESS does not clear an error: when [error] is
    set, it is the same after the action, so it is still set.  The error
    panel keeps its precedence over the fetched tasks when the message is
    not empty: a component that showed the panel goes on showing it, and a
    non-empty message is rendered as the panel. *)
Theorem fetch_success_keeps_error (s : State) (P : list Task) :
  error s ≠ None →
  error (reducer s (FETCH_SUCCESS P)) = error s
  ∧ error (reducer s (FETCH_SUCCESS P)) ≠ None
  ∧ (∀ draft m,
       App {| state := s; newTaskName := draft |} = ErrorPanel m →
       App {| state := reducer s (FETCH_SUCCESS P); newTaskName := draft |}
       = ErrorPanel m)
  ∧ (∀ draft m,
       error s = Some m → m ≠ [] →
       App {| state := reducer s (FETCH_SUCCESS P); newTaskName := draft |}
       = ErrorPanel m).
Proof.
  intros Hset. split_and!.
  - reflexivity.
  - exact Hset.
  - intros draft m. unfold App; simpl.
    destruct (loading s); [discriminate|].
    destruct (truthy (error s)); [done | discriminate].
  - intros draft m Hm Hne. unfold App; simpl. rewrite Hm.
    destruct m as [|c m]; [done|]. reflexivity.
Qed.

Lemma fetch_success_keeps_error_witness :
  let failed := reducer initialState (FETCH_ERROR (lit "Network Error")) in
  error failed ≠ None
  ∧ error (reducer failed (FETCH_SUCCESS [buy_milk])) = Some (lit "Network Error")
  ∧ App {| state := reducer failed (FETCH_SUCCESS [buy_milk]); newTaskName := [] |}
    = ErrorPanel (lit "Network Error").
Proof.
  intros failed.
  assert (Hset : error failed ≠ None) by discriminate.
  split_and!.
  - exact Hset.
  - apply (fetch_success_keeps_error failed [buy_milk] Hset).
  - apply (fetch_success_keeps_error failed [buy_milk] Hset); [reflexivity | discriminate].
Defined.

(** ** Further facts about the reducer *)

Lemma tasks_toggle (s : State) (i : Z) :
  tasks (reducer s (TOGGLE_TASK i)) = toggle_in i <$> tasks s.
Proof. reflexivity. Qed.

Lemma id_toggle_in (i : Z) (task : Task) : id (toggle_in i task) = id task.
Proof. unfold toggle_in. by destruct (decide (id task = i)). Qed.

Lemma name_toggle_in (i : Z) (task : Task) : name (toggle_in i task) = name task.
Proof. unfold toggle_in. by destruct (decide (id task = i)). Qed.

Lemma ids_toggle (i : Z) (l : list Task) : id <$> (toggle_in i <$> l) = id <$> l.
Proof.
  rewrite <- list_fmap_compose. apply list_fmap_ext.
  intros _ task _. apply id_toggle_in.
Qed.

(** In a list with unique ids, the neighbours of a task do not carry its id. *)
Lemma unique_id_split (l1 l2 : list Task) (t : Task) :
  NoDup (id <$> (l1 ++ t :: l2)) →
  (id t ∉ id <$> l1) ∧ (id t ∉ id <$> l2).
Proof.
  rewrite fmap_app, fmap_cons, NoDup_app, NoDup_cons.
  intros (_ & Hdisj & Hnot & _). split; [|done].
  intros Hin. apply (Hdisj _ Hin), list_elem_of_here.
Qed.

(** With unique ids, a task is determined by its id. *)
Lemma unique_id_task (l : list Task) (t u : Task) :
  NoDup (id <$> l) → t ∈ l → u ∈ l → id t = id u → t = u.
Proof.
  intros Hnd Ht Hu Hid.
  apply list_elem_of_split in Ht as (l1 & l2 & ->).
  apply unique_id_split in Hnd as [H1 H2].
  apply elem_of_app in Hu as [Hu|Hu].
  - destruct H1. rewrite Hid. by apply list_elem_of_fmap_2.
  - apply elem_of_cons in Hu as [->|Hu]; [done|].
    destruct H2. rewrite Hid. by apply list_elem_of_fmap_2.
Qed.

Lemma filter_fmap_toggle (i j : Z) (l : list Task) :
  filter (λ task, id task ≠ j) (toggle_in i <$> l)
  = toggle_in i <$> filter (λ task, id task ≠ j) l.
Proof.
  induction l as [|task l IH]; [done|]. rewrite fmap_cons.
  destruct (decide (id task = j)) as [Heq|Hne].
  - rewrite !filter_cons_False by (rewrite ?id_toggle_in; intros H; by apply H).
    exact IH.
  - rewrite !filter_cons_True by (by rewrite ?id_toggle_in).
    by rewrite fmap_cons, IH.
Qed.

Lemma count_occ_remove (i : Z) (l : list Task) (u : Task) :
  count_occ Task_eq_dec (filter (λ task, id task ≠ i) l) u
  = if decide (id u = i) then 0%nat else count_occ Task_eq_dec l u.
Proof.
  induction l as [|t l IH]; simpl; [by case_decide|].
  destruct (decide (id t = i)) as [Hti|Hti].
  - rewrite filter_cons_False by (intros H; by apply H). rewrite IH.
    destruct (decide (id u = i)) as [Hui|Hui]; [done|].
    destruct (Task_eq_dec t u) as [->|_]; [done|done].
  - rewrite filter_cons_True by done. simpl. rewrite IH.
    destruct (Task_eq_dec t u) as [->|_]; [|done].
    by destruct (decide (id u = i)).
Qed.

(** X1. After REMOVE_TASK no task carries the removed id; what is left is
    exactly the tasks with another id: each of them as many times as it
    occurred, in the order they had, so that the result together with the
    removed tasks is a permutation of the old list; [loading] and [error]
    are untouched. *)
Theorem remove_task_removes_all (s : State) (i : Z) :
  (i ∉ id <$> tasks (reducer s (REMOVE_TASK i)))
  ∧ (∀ task, task ∈ tasks (reducer s (REMOVE_TASK i)) ↔ task ∈ tasks s ∧ id task ≠ i)
  ∧ (∀ task, count_occ Task_eq_dec (tasks (reducer s (REMOVE_TASK i))) task
             = if decide (id task = i) then 0%nat
               else count_occ Task_eq_dec (tasks s) task)
  ∧ tasks (reducer s (REMOVE_TASK i)) `sublist_of` tasks s
  ∧ tasks (reducer s (REMOVE_TASK i)) ++ filter (λ task, id task = i) (tasks s)
    ≡ₚ tasks s
  ∧ (length (tasks (reducer s (REMOVE_TASK i)))
     + length (filter (λ task, id task = i) (tasks s)) = length (tasks s))%nat
  ∧ loading (reducer s (REMOVE_TASK i)) = loading s
  ∧ error (reducer s (REMOVE_TASK i)) = error s.
Proof.
  assert (Hperm : filter (λ task, id task ≠ i) (tasks s)
                  ++ filter (λ task, id task = i) (tasks s) ≡ₚ tasks s).
  { rewrite (list_filter_iff (λ task, id task = i) (λ task, ¬ id task ≠ i)).
    - apply filter_app_complement.
    - intros task. destruct (decide (id task = i)); tauto. }
  simpl. split_and!; [| | |apply sublist_filter|exact Hperm| |done|done].
  - intros (task & Hid & Hin)%list_elem_of_fmap.
    apply list_elem_of_filter in Hin as [Hne _]. by apply Hne.
  - intros task. rewrite list_elem_of_filter. tauto.
  - intros task. apply count_occ_remove.
  - rewrite <- length_app. by rewrite Hperm.
Qed.

(** A task that occurs twice and has another id is kept twice. *)
Example remove_keeps_repeated_tasks :
  tasks (reducer (reducer initialState (FETCH_SUCCESS [buy_milk; toggled buy_milk; buy_milk]))
           (REMOVE_TASK 7))
  = [buy_milk; toggled buy_milk; buy_milk].
Proof. reflexivity. Qed.

(** X2. REMOVE_TASK is idempotent: a second removal of the same id changes
    nothing. *)
Theorem remove_task_idempotent (s : State) (i : Z) :
  reducer (reducer s (REMOVE_TASK i)) (REMOVE_TASK i) = reducer s (REMOVE_TASK i).
Proof.
  simpl. f_equal. apply filter_all, Forall_forall.
  intros task Hin. by apply list_elem_of_filter in Hin as [Hne _].
Qed.

(** X3. TOGGLE_TASK changes nothing but [done] flags: the list keeps its
    length, and at every position the id and the name are the ones that were
    there; [loading] and [error] are untouched. *)
Theorem toggle_task_keeps_shape (s : State) (i : Z) :
  length (tasks (reducer s (TOGGLE_TASK i))) = length (tasks s)
  ∧ id <$> tasks (reducer s (TOGGLE_TASK i)) = id <$> tasks s
  ∧ name <$> tasks (reducer s (TOGGLE_TASK i)) = name <$> tasks s
  ∧ loading (reducer s (TOGGLE_TASK i)) = loading s
  ∧ error (reducer s (TOGGLE_TASK i)) = error s.
Proof.
  rewrite tasks_toggle. split_and!; [apply length_fmap|apply ids_toggle| |done|done].
  rewrite <- list_fmap_compose. apply list_fmap_ext.
  intros _ task _. apply name_toggle_in.
Qed.

(** X4. Uniqueness of ids is an invariant of the store: TOGGLE_TASK,
    REMOVE_TASK, FETCH_ERROR and unknown actions always keep it, ADD_TASK
    keeps it when the id of the new task is not in use, FETCH_SUCCESS when
    the payload has unique ids. *)
Theorem unique_ids_invariant (s : State) (a : Action) :
  NoDup (id <$> tasks s) →
  keeps_ids_unique s a →
  NoDup (id <$> tasks (reducer s a)).
Proof.
  intros Hnd Hok. destruct a as [P|m|i|t|i|tag Htag]; simpl in *;
    try assumption.
  - change (NoDup (id <$> (toggle_in i <$> tasks s))). by rewrite ids_toggle.
  - rewrite fmap_app, NoDup_app. split_and!; [done| |apply NoDup_singleton].
    intros x Hx ->%list_elem_of_singleton. by apply Hok.
  - eapply sublist_NoDup; [exact Hnd|].
    apply fmap_sublist, sublist_filter.
Qed.

Lemma unique_ids_invariant_witness :
  let loaded := reducer initialState (FETCH_SUCCESS [buy_milk]) in
  let walk := {| id := 2; name := lit "Walk"; done := false |} in
  NoDup (id <$> tasks loaded)
  ∧ keeps_ids_unique loaded (ADD_TASK walk)
  ∧ NoDup (id <$> tasks (reducer loaded (ADD_TASK walk))).
Proof.
  intros loaded walk.
  assert (Hnd : NoDup (id <$> tasks loaded)) by apply NoDup_singleton.
  assert (Hok : keeps_ids_unique loaded (ADD_TASK walk)).
  { simpl. intros H. apply list_elem_of_singleton in H. discriminate H. }
  split_and!; [exact Hnd | exact Hok |].
  exact (unique_ids_invariant loaded (ADD_TASK walk) Hnd Hok).
Defined.

(** X5. ADD_TASK does not check the id: adding a task whose id is already in
    use gives a list in which that id occurs twice. *)
Theorem add_task_used_id_duplicates (s : State) (t : Task) :
  id t ∈ id <$> tasks s →
  ¬ NoDup (id <$> tasks (reducer s (ADD_TASK t)))
  ∧ (2 ≤ length (filter (λ task, id task = id t) (tasks (reducer s (ADD_TASK t)))))%nat.
Proof.
  intros Hin. simpl. split.
  - rewrite fmap_app, NoDup_app. intros (_ & Hdisj & _).
    apply (Hdisj _ Hin), list_elem_of_here.
  - rewrite filter_app, length_app, filter_cons_True by done. simpl.
    apply list_elem_of_fmap in Hin as (u & Hid & Hu).
    assert (Hu' : u ∈ filter (λ task, id task = id t) (tasks s)).
    { by apply list_elem_of_filter. }
    destruct (filter (λ task, id task = id t) (tasks s)); simpl; [|lia].
    by apply elem_of_nil in Hu'.
Qed.

Lemma add_task_used_id_duplicates_witness :
  let loaded := reducer initialState (FETCH_SUCCESS [buy_milk]) in
  let again := {| id := 1; name := lit "Walk"; done := false |} in
  id again ∈ id <$> tasks loaded
  ∧ ¬ NoDup (id <$> tasks (reducer loaded (ADD_TASK again))).
Proof.
  intros loaded again.
  assert (Hin : id again ∈ id <$> tasks loaded) by (simpl; apply list_elem_of_here).
  split; [exact Hin|].
  exact (proj1 (add_task_used_id_duplicates loaded again Hin)).
Defined.

(** X6. With unique ids TOGGLE_TASK changes one task and one only: if the
    task at position [n] carries the id, the new list is the old one with
    that position replaced by the task with its flag negated. *)
Theorem toggle_task_changes_one (s : State) (n : nat) (t : Task) :
  NoDup (id <$> tasks s) →
  tasks s !! n = Some t →
  tasks (reducer s (TOGGLE_TASK (id t))) = <[n := toggled t]> (tasks s).
Proof.
  intros Hnd Hn. rewrite tasks_toggle.
  rewrite insert_take_drop by (by eapply lookup_lt_Some).
  rewrite <- (take_drop_middle _ _ _ Hn) in Hnd |- * at 1.
  apply unique_id_split in Hnd as [H1 H2].
  rewrite fmap_app, fmap_cons, !toggle_map_absent by done.
  unfold toggle_in at 1. by rewrite decide_True.
Qed.

Lemma toggle_task_changes_one_witness :
  let walk := {| id := 2; name := lit "Walk"; done := false |} in
  let loaded := reducer initialState (FETCH_SUCCESS [buy_milk; walk]) in
  NoDup (id <$> tasks loaded)
  ∧ tasks loaded !! 1%nat = Some walk
  ∧ tasks (reducer loaded (TOGGLE_TASK 2)) = [buy_milk; toggled walk].
Proof.
  intros walk loaded.
  assert (Hnd : NoDup (id <$> tasks loaded)).
  { apply (bool_decide_unpack _). vm_compute. exact I. }
  assert (Hn : tasks loaded !! 1%nat = Some walk) by reflexivity.
  split_and!; [exact Hnd | exact Hn |].
  exact (toggle_task_changes_one loaded 1 walk Hnd Hn).
Defined.

(** X7. With unique ids REMOVE_TASK of the id of the task at position [n]
    deletes that position and nothing else. *)
Theorem remove_task_removes_one (s : State) (n : nat) (t : Task) :
  NoDup (id <$> tasks s) →
  tasks s !! n = Some t →
  tasks (reducer s (REMOVE_TASK (id t))) = delete n (tasks s)
  ∧ (length (tasks (reducer s (REMOVE_TASK (id t)))) + 1 = length (tasks s))%nat.
Proof.
  intros Hnd Hn.
  assert (Heq : tasks (reducer s (REMOVE_TASK (id t))) = delete n (tasks s)).
  { simpl. rewrite delete_take_drop.
    rewrite <- (take_drop_middle _ _ _ Hn) in Hnd |- * at 1.
    apply unique_id_split in Hnd as [H1 H2].
    rewrite filter_app, filter_cons_False by (intros H; by apply H).
    by rewrite !remove_absent. }
  split; [exact Heq|]. rewrite Heq, length_delete by eauto.
  apply lookup_lt_Some in Hn. lia.
Qed.

Lemma remove_task_removes_one_witness :
  let walk := {| id := 2; name := lit "Walk"; done := false |} in
  let loaded := reducer initialState (FETCH_SUCCESS [buy_milk; walk]) in
  NoDup (id <$> tasks loaded)
  ∧ tasks loaded !! 0%nat = Some buy_milk
  ∧ tasks (reducer loaded (REMOVE_TASK 1)) = [walk].
Proof.
  intros walk loaded.
  assert (Hnd : NoDup (id <$> tasks loaded)).
  { apply (bool_decide_unpack _). vm_compute. exact I. }
  assert (Hn : tasks loaded !! 0%nat = Some buy_milk) by reflexivity.
  split_and!; [exact Hnd | exact Hn |].
  exact (proj1 (remove_task_removes_one loaded 0 buy_milk Hnd Hn)).
Defined.

Lemma toggle_in_comm (i j : Z) (task : Task) :
  toggle_in i (toggle_in j task) = toggle_in j (toggle_in i task).
Proof.
  unfold toggle_in.
  destruct (decide (id task = i)), (decide (id task = j)); simpl;
    repeat (rewrite ?decide_True, ?decide_False by done); done.
Qed.

(** X8. Toggles and removals can be dispatched in either order: two
    TOGGLE_TASK commute, two REMOVE_TASK commute, and a TOGGLE_TASK commutes
    with a REMOVE_TASK, whatever the ids. *)
Theorem toggle_remove_commute (s : State) (i j : Z) :
  reducer (reducer s (TOGGLE_TASK i)) (TOGGLE_TASK j)
  = reducer (reducer s (TOGGLE_TASK j)) (TOGGLE_TASK i)
  ∧ reducer (reducer s (REMOVE_TASK i)) (REMOVE_TASK j)
    = reducer (reducer s (REMOVE_TASK j)) (REMOVE_TASK i)
  ∧ reducer (reducer s (TOGGLE_TASK i)) (REMOVE_TASK j)
    = reducer (reducer s (REMOVE_TASK j)) (TOGGLE_TASK i).
Proof.
  split_and!.
  - simpl. f_equal.
    change (toggle_in j <$> (toggle_in i <$> tasks s)
            = toggle_in i <$> (toggle_in j <$> tasks s)).
    rewrite <- !list_fmap_compose. apply list_fmap_ext.
    intros _ task _. apply toggle_in_comm.
  - simpl. f_equal. rewrite !list_filter_filter.
    apply list_filter_iff. tauto.
  - simpl. f_equal. apply (filter_fmap_toggle i j).
Qed.

(** X9. No action clears an error: once [error] is set it is set after any
    sequence of actions, and only FETCH_ERROR changes its value. *)
Theorem error_never_cleared (s : State) (actions : list Action) :
  error s ≠ None →
  error (foldl reducer s actions) ≠ None
  ∧ (Forall (λ a, ∀ m, a ≠ FETCH_ERROR m) actions →
     error (foldl reducer s actions) = error s).
Proof.
  revert s. induction actions as [|a actions IH]; intros s Hset; simpl.
  - done.
  - assert (Hstep : error (reducer s a) ≠ None) by (by destruct a).
    destruct (IH _ Hstep) as [Hkept Hsame]. split; [exact Hkept|].
    intros [Ha Hrest]%Forall_cons. rewrite (Hsame Hrest).
    destruct a; try reflexivity. by destruct (Ha payload).
Qed.

Lemma error_never_cleared_witness :
  let failed := reducer initialState (FETCH_ERROR (lit "Network Error")) in
  error failed ≠ None
  ∧ error (foldl reducer failed [FETCH_SUCCESS [buy_milk]; TOGGLE_TASK 1; REMOVE_TASK 1])
    ≠ None.
Proof.
  intros failed.
  assert (Hset : error failed ≠ None) by discriminate.
  split; [exact Hset|].
  exact (proj1 (error_never_cleared failed
                  [FETCH_SUCCESS [buy_milk]; TOGGLE_TASK 1; REMOVE_TASK 1] Hset)).
Defined.

(** X10. Only the two fetch actions leave the loading phase: after any
    sequence of other actions [loading] and [error] are what they were, so a
    component that was loading still renders the loading indicator. *)
Theorem only_fetch_ends_loading (s : State) (actions : list Action) :
  Forall (λ a, is_fetch a = false) actions →
  loading (foldl reducer s actions) = loading s
  ∧ error (foldl reducer s actions) = error s
  ∧ (loading s = true →
     ∀ draft, App {| state := foldl reducer s actions; newTaskName := draft |}
              = LoadingIndicator).
Proof.
  intros Hall.
  assert (Hframe : loading (foldl reducer s actions) = loading s
                   ∧ error (foldl reducer s actions) = error s).
  { revert s. induction Hall as [|a actions Ha _ IH]; intros s; simpl; [done|].
    destruct (IH (reducer s a)) as [-> ->]. by destruct a. }
  destruct Hframe as [Hl He]. split_and!; [done|done|].
  intros Hs draft. unfold App; simpl. by rewrite Hl, Hs.
Qed.

Lemma only_fetch_ends_loading_witness :
  Forall (λ a, is_fetch a = false) [ADD_TASK buy_milk; TOGGLE_TASK 1]
  ∧ App {| state := foldl reducer initialState [ADD_TASK buy_milk; TOGGLE_TASK 1];
           newTaskName := lit "" |}
    = LoadingIndicator.
Proof.
  assert (Hall : Forall (λ a, is_fetch a = false) [ADD_TASK buy_milk; TOGGLE_TASK 1]).
  { repeat constructor. }
  split; [exact Hall|].
  apply (only_fetch_ends_loading initialState _ Hall). reflexivity.
Defined.

(** ** Further facts about the view *)

Lemma tasksToDo_app (l k : list Task) : tasksToDo (l ++ k) = tasksToDo l ++ tasksToDo k.
Proof. apply filter_app. Qed.

Lemma doneTasks_app (l k : list Task) : doneTasks (l ++ k) = doneTasks l ++ doneTasks k.
Proof. apply filter_app. Qed.

Lemma tasksToDo_cons (t : Task) (l : list Task) :
  tasksToDo (t :: l) = if done t then tasksToDo l else t :: tasksToDo l.
Proof.
  unfold tasksToDo. destruct (done t) eqn:Hd.
  - apply filter_cons_False. intros H. apply H. by apply Is_true_true_2.
  - apply filter_cons_True. by apply Is_true_false_2.
Qed.

Lemma doneTasks_cons (t : Task) (l : list Task) :
  doneTasks (t :: l) = if done t then t :: doneTasks l else doneTasks l.
Proof.
  unfold doneTasks. destruct (done t) eqn:Hd.
  - apply filter_cons_True. by apply Is_true_true_2.
  - apply filter_cons_False. by apply Is_true_false_2.
Qed.

Lemma elem_of_tasksToDo (t : Task) (l : list Task) :
  t ∈ tasksToDo l ↔ t ∈ l ∧ done t = false.
Proof. unfold tasksToDo. rewrite list_elem_of_filter, Is_true_false. tauto. Qed.

Lemma elem_of_doneTasks (t : Task) (l : list Task) :
  t ∈ doneTasks l ↔ t ∈ l ∧ done t = true.
Proof. unfold doneTasks. rewrite list_elem_of_filter, Is_true_true. tauto. Qed.

(** X11. With unique ids, toggling a task that is still to do moves it, and
    it alone, from the to-do list to the done list: the to-do list loses it,
    the done list receives it, flag set, at the place its position in
    [tasks] gives, and every other item of either list stays where it was. *)
Theorem toggle_moves_to_done (s : State) (l1 l2 : list Task) (t : Task) :
  NoDup (id <$> tasks s) →
  tasks s = l1 ++ t :: l2 →
  done t = false →
  (tasksToDo (tasks s) = tasksToDo l1 ++ t :: tasksToDo l2
   ∧ doneTasks (tasks s) = doneTasks l1 ++ doneTasks l2)
  ∧ tasksToDo (tasks (reducer s (TOGGLE_TASK (id t)))) = tasksToDo l1 ++ tasksToDo l2
  ∧ doneTasks (tasks (reducer s (TOGGLE_TASK (id t))))
    = doneTasks l1 ++ toggled t :: doneTasks l2.
Proof.
  intros Hnd Hs Hd. rewrite tasks_toggle, Hs in *.
  apply unique_id_split in Hnd as [H1 H2].
  rewrite fmap_app, fmap_cons, !toggle_map_absent by done.
  unfold toggle_in. rewrite decide_True by done.
  rewrite !tasksToDo_app, !doneTasks_app, !tasksToDo_cons, !doneTasks_cons.
  unfold toggled at 1 3; simpl. by rewrite Hd.
Qed.

Lemma toggle_moves_to_done_witness :
  let walk := {| id := 2; name := lit "Walk"; done := false |} in
  let loaded := reducer initialState (FETCH_SUCCESS [buy_milk; walk]) in
  NoDup (id <$> tasks loaded)
  ∧ tasksToDo (tasks (reducer loaded (TOGGLE_TASK 1))) = [walk]
  ∧ doneTasks (tasks (reducer loaded (TOGGLE_TASK 1))) = [toggled buy_milk].
Proof.
  intros walk loaded.
  assert (Hnd : NoDup (id <$> tasks loaded)).
  { apply (bool_decide_unpack _). vm_compute. exact I. }
  assert (Hs : tasks loaded = [] ++ buy_milk :: [walk]) by reflexivity.
  assert (Hd : done buy_milk = false) by reflexivity.
  split; [exact Hnd|].
  exact (proj2 (toggle_moves_to_done loaded [] [walk] buy_milk Hnd Hs Hd)).
Defined.

(** X12. A task added through the handler shows up as the last item of the
    to-do list; the done list is the same, and the input is emptied. *)
Theorem added_task_is_last_todo (now : Z) (c : Component) :
  trim (newTaskName c) ≠ [] →
  tasksToDo (tasks (state (run c (handleAddTask now c))))
  = tasksToDo (tasks (state c)) ++ [{| id := now; name := newTaskName c; done := false |}]
  ∧ doneTasks (tasks (state (run c (handleAddTask now c)))) = doneTasks (tasks (state c))
  ∧ (∀ draft todo finished,
       App c = TaskBoard draft todo finished →
       App (run c (handleAddTask now c))
       = TaskBoard (lit "")
           (todo ++ [{| id := now; name := newTaskName c; done := false |}])
           finished).
Proof.
  intros Htext. unfold handleAddTask. rewrite decide_False by done.
  unfold App; simpl. rewrite tasksToDo_app, doneTasks_app, app_nil_r.
  split_and!; [done|done|].
  intros draft todo finished.
  destruct (loading (state c)); [discriminate|].
  destruct (truthy (error (state c))); [discriminate|].
  by intros [= _ <- <-].
Qed.

Lemma added_task_is_last_todo_witness :
  let c := {| state := reducer initialState (FETCH_SUCCESS [buy_milk]);
              newTaskName := lit " Walk " |} in
  trim (newTaskName c) ≠ []
  ∧ App (run c (handleAddTask 1730505600000 c))
    = TaskBoard (lit "")
        [buy_milk; {| id := 1730505600000; name := lit " Walk "; done := false |}] [].
Proof.
  intros c.
  assert (Htext : trim (newTaskName c) ≠ []) by discriminate.
  split; [exact Htext|].
  destruct (added_task_is_last_todo 1730505600000 c Htext) as (_ & _ & Hboard).
  exact (Hboard (lit " Walk ") [buy_milk] [] eq_refl).
Defined.

(** X13. The add handler does nothing exactly when the draft consists of
    white space only, the empty draft included; a draft with one other
    character is added. *)
Theorem add_suppressed_iff_blank (now : Z) (c : Component) :
  handleAddTask now c = [] ↔ forallb isWhiteSpace (newTaskName c) = true.
Proof.
  rewrite <- trim_empty. unfold handleAddTask.
  destruct (decide (trim (newTaskName c) = [])) as [Hblank|Htext].
  - done.
  - split; [discriminate | done].
Qed.

(** X14. The guard of the add handler is per render.  The handler of the
    render that follows a run of the add handler does nothing: the draft it
    reads was emptied, or was blank and still is.  The handler of one and
    the same render reads the same draft each time it is called: called
    twice with a draft that is not blank it dispatches twice, and two tasks
    with that name are appended. *)
Theorem add_guard_is_per_render (now now' : Z) (c : Component) :
  (handleAddTask now' (run c (handleAddTask now c)) = []
   ∧ run (run c (handleAddTask now c)) (handleAddTask now' (run c (handleAddTask now c)))
     = run c (handleAddTask now c))
  ∧ (trim (newTaskName c) ≠ [] →
     tasks (state (run c (handleAddTask now c ++ handleAddTask now' c)))
     = tasks (state c)
         ++ [{| id := now; name := newTaskName c; done := false |};
             {| id := now'; name := newTaskName c; done := false |}]
     ∧ newTaskName (run c (handleAddTask now c ++ handleAddTask now' c)) = lit "")
  ∧ (trim (newTaskName c) = [] →
     run c (handleAddTask now c ++ handleAddTask now' c) = c).
Proof.
  assert (Hsecond : handleAddTask now' (run c (handleAddTask now c)) = []).
  { unfold handleAddTask at 2.
    destruct (decide (trim (newTaskName c) = [])) as [Hblank|Htext]; simpl.
    - unfold handleAddTask. by rewrite decide_True.
    - reflexivity. }
  split_and!.
  - exact Hsecond.
  - by rewrite Hsecond.
  - intros Htext. unfold handleAddTask. rewrite !decide_False by done.
    simpl. by rewrite <- app_assoc.
  - intros Hblank. unfold handleAddTask. by rewrite !decide_True.
Qed.

Lemma add_guard_is_per_render_witness :
  let walk := {| state := reducer initialState (FETCH_SUCCESS [buy_milk]);
                 newTaskName := lit "Walk" |} in
  let blank := {| state := reducer initialState (FETCH_SUCCESS [buy_milk]);
                  newTaskName := lit "  " |} in
  (trim (newTaskName walk) ≠ []
   ∧ tasks (state (run walk (handleAddTask 5 walk ++ handleAddTask 6 walk)))
     = [buy_milk;
        {| id := 5; name := lit "Walk"; done := false |};
        {| id := 6; name := lit "Walk"; done := false |}]
   ∧ tasks (state (run (run walk (handleAddTask 5 walk))
                     (handleAddTask 6 (run walk (handleAddTask 5 walk)))))
     = [buy_milk; {| id := 5; name := lit "Walk"; done := false |}])
  ∧ (trim (newTaskName blank) = []
     ∧ run blank (handleAddTask 5 blank ++ handleAddTask 6 blank) = blank).
Proof.
  intros walk blank.
  assert (Htext : trim (newTaskName walk) ≠ []) by discriminate.
  assert (Hblank : trim (newTaskName blank) = []) by reflexivity.
  destruct (add_guard_is_per_render 5 6 walk) as ([_ Hrerender] & Hsame & _).
  destruct (add_guard_is_per_render 5 6 blank) as (_ & _ & Hnone).
  split; split_and!.
  - exact Htext.
  - exact (proj1 (Hsame Htext)).
  - by rewrite Hrerender.
  - exact Hblank.
  - exact (Hnone Hblank).
Defined.

(** X15. From mount to the first result of the fetch: the component first
    renders the loading indicator; when the request is fulfilled it renders
    the board with the received tasks split by [done] and an empty input;
    when it is rejected with a non-empty message it renders the error panel
    with that message, and with an empty message the empty board. *)
Theorem mount_then_settle :
  App mounted = LoadingIndicator
  ∧ (∀ data,
       App (run mounted (onFetchSettled (Fulfilled data)))
       = TaskBoard (lit "") (tasksToDo data) (doneTasks data))
  ∧ (∀ c m,
       App (run mounted (onFetchSettled (Rejected (c :: m)))) = ErrorPanel (c :: m))
  ∧ App (run mounted (onFetchSettled (Rejected (lit "")))) = TaskBoard (lit "") [] [].
Proof. split_and!; reflexivity. Qed.

(** ** Gestures *)

(** Controls exist only on the board. *)
Lemma offered_board (c : Component) (g : Gesture) :
  offered c g = true →
  loading (state c) = false ∧ truthy (error (state c)) = false.
Proof.
  unfold offered, App.
  destruct (loading (state c)); [discriminate|].
  destruct (truthy (error (state c))); [discriminate|done].
Qed.

Lemma offered_toggle (c : Component) (t : Task) :
  offered c (ClickToggle t) = true → t ∈ tasksToDo (tasks (state c)).
Proof.
  unfold offered, App.
  destruct (loading (state c)); [discriminate|].
  destruct (truthy (error (state c))); [discriminate|].
  apply bool_decide_eq_true_1.
Qed.

Lemma offered_remove (c : Component) (t : Task) :
  offered c (ClickRemove t) = true → t ∈ tasks (state c).
Proof.
  unfold offered, App.
  destruct (loading (state c)); [discriminate|].
  destruct (truthy (error (state c))); [discriminate|].
  intros H%bool_decide_eq_true_1.
  apply elem_of_app in H as [H|H].
  - by apply elem_of_tasksToDo in H as [H _].
  - by apply elem_of_doneTasks in H as [H _].
Qed.

(** X16. No gesture leaves the board: whatever control the user operates,
    [loading] stays false and [error] stays what it was, so the component
    renders the board again, never the loading indicator or the error
    panel. *)
Theorem gestures_stay_on_board (now : Z) (c : Component) (g : Gesture) :
  offered c g = true →
  loading (state (interact now c g)) = false
  ∧ error (state (interact now c g)) = error (state c)
  ∧ App (interact now c g)
    = TaskBoard (newTaskName (interact now c g))
        (tasksToDo (tasks (state (interact now c g))))
        (doneTasks (tasks (state (interact now c g)))).
Proof.
  intros [Hl He]%offered_board.
  assert (Hframe : loading (state (interact now c g)) = false
                   ∧ error (state (interact now c g)) = error (state c)).
  { unfold interact. destruct g; simpl; try done.
    unfold handleAddTask. by case_decide. }
  destruct Hframe as [Hl' He']. split_and!; [done|done|].
  unfold App. by rewrite Hl', He', He.
Qed.

Lemma gestures_stay_on_board_witness :
  let c := {| state := reducer initialState (FETCH_SUCCESS [buy_milk]);
              newTaskName := lit "" |} in
  offered c (ClickToggle buy_milk) = true
  ∧ App (interact 0 c (ClickToggle buy_milk)) = TaskBoard (lit "") [] [toggled buy_milk].
Proof.
  intros c.
  assert (Hoff : offered c (ClickToggle buy_milk) = true) by reflexivity.
  split; [exact Hoff|].
  exact (proj2 (proj2 (gestures_stay_on_board 0 c (ClickToggle buy_milk) Hoff))).
Defined.

(** X17. Completion is one-way on the screen: the done list has no check
    button, so with unique ids a task that is done stays in the done list
    under every gesture except the click on its own trash button. *)
Theorem done_stays_done (now : Z) (c : Component) (g : Gesture) (t : Task) :
  NoDup (id <$> tasks (state c)) →
  offered c g = true →
  t ∈ doneTasks (tasks (state c)) →
  t ∈ doneTasks (tasks (state (interact now c g))) ∨ g = ClickRemove t.
Proof.
  intros Hnd Hoff [Hin Hd]%elem_of_doneTasks.
  destruct g as [value| |u|u]; unfold interact; simpl.
  - left. by apply elem_of_doneTasks.
  - left. unfold handleAddTask. case_decide; simpl.
    + by apply elem_of_doneTasks.
    + apply elem_of_doneTasks. split; [|done]. apply elem_of_app. by left.
  - left. apply offered_toggle, elem_of_tasksToDo in Hoff as [Hu Hud].
    assert (Hne : id t ≠ id u).
    { intros Hid. apply (unique_id_task _ _ _ Hnd Hin Hu) in Hid. congruence. }
    apply elem_of_doneTasks. split; [|done].
    apply list_elem_of_fmap. exists t. split; [|done].
    by rewrite decide_False.
  - destruct (decide (u = t)) as [->|Hut]; [by right|left].
    apply offered_remove in Hoff.
    apply elem_of_doneTasks. split; [|done].
    apply list_elem_of_filter. split; [|done].
    intros Hid. apply Hut. symmetry. by apply (unique_id_task _ _ _ Hnd Hin Hoff).
Qed.

Lemma done_stays_done_witness :
  let bought := toggled buy_milk in
  let walk := {| id := 2; name := lit "Walk"; done := false |} in
  let c := {| state := reducer initialState (FETCH_SUCCESS [bought; walk]);
              newTaskName := lit "" |} in
  NoDup (id <$> tasks (state c))
  ∧ offered c (ClickToggle walk) = true
  ∧ bought ∈ doneTasks (tasks (state c))
  ∧ bought ∈ doneTasks (tasks (state (interact 0 c (ClickToggle walk)))).
Proof.
  intros bought walk c.
  assert (Hnd : NoDup (id <$> tasks (state c))).
  { apply (bool_decide_unpack _). vm_compute. exact I. }
  assert (Hoff : offered c (ClickToggle walk) = true) by reflexivity.
  assert (Hin : bought ∈ doneTasks (tasks (state c))) by apply list_elem_of_here.
  split_and!; [exact Hnd | exact Hoff | exact Hin |].
  destruct (done_stays_done 0 c (ClickToggle walk) bought Hnd Hoff Hin) as [H|H].
  - exact H.
  - discriminate H.
Defined.

(** Without unique ids the check button of a to-do item also flips a done
    task that shares its id back to to do. *)
Example shared_id_undoes_done :
  let bought := toggled buy_milk in
  let twin := {| id := 1; name := lit "Walk"; done := false |} in
  let c := {| state := reducer initialState (FETCH_SUCCESS [bought; twin]);
              newTaskName := lit "" |} in
  offered c (ClickToggle twin) = true
  ∧ App (interact 0 c (ClickToggle twin)) = TaskBoard (lit "") [buy_milk] [toggled twin].
Proof. split; reflexivity. Qed.

(** X18. The React keys are sound when ids are unique: within the to-do
    list and within the done list no two items have the same [key], and no
    id occurs in both lists. *)
Theorem keys_unique (l : list Task) :
  NoDup (id <$> l) →
  NoDup (id <$> tasksToDo l)
  ∧ NoDup (id <$> doneTasks l)
  ∧ (∀ i, i ∈ id <$> tasksToDo l → ¬ (i ∈ id <$> doneTasks l)).
Proof.
  intros Hnd. split_and!.
  - eapply sublist_NoDup; [exact Hnd|]. apply fmap_sublist, sublist_filter.
  - eapply sublist_NoDup; [exact Hnd|]. apply fmap_sublist, sublist_filter.
  - intros i (t & -> & [Ht Htd]%elem_of_tasksToDo)%list_elem_of_fmap
             (u & Hid & [Hu Hud]%elem_of_doneTasks)%list_elem_of_fmap.
    apply (unique_id_task _ _ _ Hnd Ht Hu) in Hid. congruence.
Qed.

Lemma keys_unique_witness :
  let walk := {| id := 2; name := lit "Walk"; done := true |} in
  NoDup (id <$> [buy_milk; walk])
  ∧ NoDup (id <$> tasksToDo [buy_milk; walk])
  ∧ NoDup (id <$> doneTasks [buy_milk; walk]).
Proof.
  intros walk.
  assert (Hnd : NoDup (id <$> [buy_milk; walk])).
  { apply (bool_decide_unpack _). vm_compute. exact I. }
  destruct (keys_unique [buy_milk; walk] Hnd) as (Htodo & Hdone & _).
  split_and!; [exact Hnd | exact Htodo | exact Hdone].
Defined.

(** X19. The trash button removes the clicked task from the screen and
    leaves the rest of both lists in place: each projection after the
    removal is the projection before it without the tasks of that id; the
    draft is not touched. *)
Theorem remove_from_board (c : Component) (t : Task) :
  tasksToDo (tasks (state (run c (handleRemoveTask (id t)))))
  = filter (λ task, id task ≠ id t) (tasksToDo (tasks (state c)))
  ∧ doneTasks (tasks (state (run c (handleRemoveTask (id t)))))
    = filter (λ task, id task ≠ id t) (doneTasks (tasks (state c)))
  ∧ ¬ (t ∈ tasksToDo (tasks (state (run c (handleRemoveTask (id t))))))
  ∧ ¬ (t ∈ doneTasks (tasks (state (run c (handleRemoveTask (id t))))))
  ∧ newTaskName (run c (handleRemoveTask (id t))) = newTaskName c.
Proof.
  simpl. unfold tasksToDo, doneTasks. rewrite !list_filter_filter.
  split_and!; [apply list_filter_iff; tauto | apply list_filter_iff; tauto | | | done].
  - intros [[_ Hne] _]%list_elem_of_filter. by apply Hne.
  - intros [[_ Hne] _]%list_elem_of_filter. by apply Hne.
Qed.

(** X20. No item of the to-do list is rendered struck through: for the
    tasks of [tasksToDo] the conditional class of the name is always the
    empty one. *)
Theorem todo_item_never_struck (l : list Task) (t : Task) :
  t ∈ tasksToDo l → todoItemClass t = lit "flex-1 ".
Proof.
  intros [_ Hd]%elem_of_tasksToDo. unfold todoItemClass. by rewrite Hd.
Qed.

Lemma todo_item_never_struck_witness :
  buy_milk ∈ tasksToDo [buy_milk] ∧ todoItemClass buy_milk = lit "flex-1 ".
Proof.
  assert (Hin : buy_milk ∈ tasksToDo [buy_milk]) by apply list_elem_of_here.
  split; [exact Hin|].
  exact (todo_item_never_struck [buy_milk] buy_milk Hin).
Defined.
